(** * examples/new_command.py: a new top-level [config] command

    A shallow embedding of the AWS CLI extension example and the properties
    of its registration hook, its dispatcher, its two placeholder actions
    and its help renderer.

    Python objects live in a heap indexed by locations, so that a dict that
    is handed to a constructor and later updated is one shared object; the
    methods are state transformers that may return or raise. *)

From Stdlib Require Import ZArith.
From stdpp Require Import gmap strings list fin_maps.

Open Scope string_scope.
Open Scope list_scope.

(** ** Values and objects *)

Definition loc := positive.

(** The methods of this file that are used as first-class callables. *)
Inductive method :=
  | M_do_foo
  | M_do_bar
  | M_title
  | M_description.

Inductive value :=
  | VNone
  | VStr (s : string)
  | VRef (l : loc)
  | VMethod (self : loc) (m : method).

(** What [help_command.doc] has received: [doc.style.h1], [doc.style.h2]
    and [doc.include_doc_string]. *)
Inductive doc_item :=
  | H1 (s : string)
  | H2 (s : string)
  | DocString (s : string).

(** A dotted event name such as [doc-title.Config.config], or a pattern
    such as [doc-title.Config.*], as the list of its segments. *)
Definition event := list string.

Inductive obj :=
  | ODict (d : gmap string value)
  | OSession (handlers : list (event * value))
  | OConfigCommand (name : string) (session : value)
  | OConfigHelpCommand (session obj command_table arg_table : value)
                       (doc : list doc_item)
  | OConfigDocumentEventHandler (help_command : value).

(** ** Program states and the monad of methods *)

(** One application of a callable: the callee, the list of tokens and the
    global options it received. *)
Record call_record := Call {
  callee : value;
  call_args : list string;
  call_globals : value }.

Record state := State {
  heap : gmap loc obj;
  stdout : list string;
  calls : list call_record }.

Inductive exn :=
  | KeyError (k : string)
  | TypeError
  | AttributeError
  | SystemExit (status : Z).

Inductive result (A : Type) :=
  | Ret (a : A)
  | Raise (e : exn).
Arguments Ret {A} a.
Arguments Raise {A} e.

Definition M (A : Type) : Type := state -> result A * state.

#[global] Instance M_ret : MRet M := fun A a st => (Ret a, st).

#[global] Instance M_bind : MBind M := fun A B f m st =>
  match m st with
  | (Ret a, st') => f a st'
  | (Raise e, st') => (Raise e, st')
  end.

Definition raise {A} (e : exn) : M A := fun st => (Raise e, st).

(** ** Primitive operations of the object model *)

Definition set_heap (h : gmap loc obj) (st : state) : state :=
  State h (stdout st) (calls st).

(** A new object gets a location that no live object has. *)
Definition alloc (o : obj) : M loc := fun st =>
  let l := fresh (dom (heap st)) in
  (Ret l, set_heap (<[l := o]> (heap st)) st).

Definition deref (v : value) : M obj := fun st =>
  match v with
  | VRef l =>
      match heap st !! l with
      | Some o => (Ret o, st)
      | None => (Raise AttributeError, st)
      end
  | _ => (Raise AttributeError, st)
  end.

Definition store (v : value) (o : obj) : M unit := fun st =>
  match v with
  | VRef l => (Ret tt, set_heap (<[l := o]> (heap st)) st)
  | _ => (Raise AttributeError, st)
  end.

(** [print(s)] *)
Definition print (s : string) : M unit := fun st =>
  (Ret tt, State (heap st) (stdout st ++ [s]) (calls st)).

(** [d[k] = v]. On anything that is not a dict ([None], a string, a
    method, an object of another class) the subscript assignment is a
    [TypeError]. *)
Definition dict_setitem (d : value) (k : string) (v : value) : M unit :=
  fun st =>
    match d with
    | VRef l =>
        match heap st !! l with
        | Some (ODict m) =>
            (Ret tt, set_heap (<[l := ODict (<[k := v]> m)]> (heap st)) st)
        | _ => (Raise TypeError, st)
        end
    | _ => (Raise TypeError, st)
    end.

(** [d[k]]. A missing key is a [KeyError]; on anything that is not a dict
    the subscript is a [TypeError]. *)
Definition dict_getitem (d : value) (k : string) : M value :=
  fun st =>
    match d with
    | VRef l =>
        match heap st !! l with
        | Some (ODict m) =>
            match m !! k with
            | Some v => (Ret v, st)
            | None => (Raise (KeyError k), st)
            end
        | _ => (Raise TypeError, st)
        end
    | _ => (Raise TypeError, st)
    end.

(** [doc.style.h1(..)], [doc.style.h2(..)], [doc.include_doc_string(..)]
    on the document of a help command. *)
Definition doc_write (help_command : value) (item : doc_item) : M unit :=
  o ← deref help_command;
  match o with
  | OConfigHelpCommand s ob ct at_ d =>
      store help_command (OConfigHelpCommand s ob ct at_ (d ++ [item]))
  | _ => raise AttributeError
  end.

(** [ConfigCommand.documentation] (line 60), a class attribute; it is
    declared ahead of the event handlers, which read it through
    [help_command.obj]. *)
Definition documentation : string := "Edit the AWSCLI config file".

(** ** class ConfigHelpCommand: the two properties *)

Module ConfigHelpCommand.

Definition event_class : string := "Config".

Definition name : string := "config".

End ConfigHelpCommand.

(** [help_command.name] *)
Definition get_name (help_command : value) : M string :=
  o ← deref help_command;
  match o with
  | OConfigHelpCommand _ _ _ _ _ => mret ConfigHelpCommand.name
  | _ => raise AttributeError
  end.

(** [help_command.obj] *)
Definition get_obj (help_command : value) : M value :=
  o ← deref help_command;
  match o with
  | OConfigHelpCommand _ ob _ _ _ => mret ob
  | _ => raise AttributeError
  end.

(** [config.documentation] *)
Definition get_documentation (config : value) : M string :=
  o ← deref config;
  match o with
  | OConfigCommand _ _ => mret documentation
  | _ => raise AttributeError
  end.

(** ** class ConfigDocumentEventHandler *)

Module ConfigDocumentEventHandler.

(** The two handlers. [initialize] (lines 25 to 28) hands them to the
    session's [register], after the base class's own [initialize]; both
    calls go to the host and are left out here. *)

Definition title (help_command : value) : M value :=
  n ← get_name help_command;
  doc_write help_command (H1 n);;
  mret VNone.

Definition description (help_command : value) : M value :=
  config ← get_obj help_command;
  doc_write help_command (H2 "Description");;
  d ← get_documentation config;
  doc_write help_command (DocString d);;
  mret VNone.

End ConfigDocumentEventHandler.

(** ** The host's help command *)

(** The text of one item of a document. *)
Definition doc_text (item : doc_item) : string :=
  match item with
  | H1 s | H2 s | DocString s => s
  end.

Module HelpCommand.

(** Modelled from the spec: the constructor of [awscli.help.HelpCommand]
    is defined outside [new_command.py]. The new object keeps the four
    arguments it is constructed with (the handlers above read
    [help_command.obj] and [help_command.doc]) and starts with an empty
    document. *)
Definition new (session ob command_table arg_table : value) : M value :=
  l ← alloc (OConfigHelpCommand session ob command_table arg_table []);
  mret (VRef l).

(** Modelled from the spec: the host's document-rendering collaborator is
    defined outside [new_command.py]. The verb [help] prints a title and a
    description (section 6), as short fixed strings on standard output
    (section 5): the items of the help command's document are written to
    standard output, one line each, in the order they were added. *)
Definition render (help_command : value) : M unit :=
  o ← deref help_command;
  match o with
  | OConfigHelpCommand _ _ _ _ doc =>
      fun st =>
        (Ret tt, State (heap st) (stdout st ++ (doc_text <$> doc)) (calls st))
  | _ => raise AttributeError
  end.

(** Modelled from the spec: [HelpCommand.__call__] is defined outside
    [new_command.py]. On invocation the help renderer produces two
    rendered sections, a heading equal to the command's name and a body
    equal to the static documentation string, using the rendering
    collaborator (section 4.4): the [title] handler and then the
    [description] handler of its [EventHandlerClass] (line 47) write the
    two sections to its document, and the document is rendered. It keeps
    no state and has no failure of its own (section 4.4). *)
Definition __call__ (self : loc) (args : list string)
    (parsed_globals : value) : M value :=
  o ← deref (VRef self);
  match o with
  | OConfigHelpCommand _ _ _ _ _ =>
      ConfigDocumentEventHandler.title (VRef self);;
      ConfigDocumentEventHandler.description (VRef self);;
      render (VRef self);;
      mret VNone
  | _ => raise AttributeError
  end.

End HelpCommand.

(** ** The host's argument parser *)

Module ServiceArgParser.

(** [ServiceArgParser(operations_table=..., service_name=...)] *)
Record t := new {
  operations_table : gmap string value;
  service_name : string }.

(** What [parse_known_args] gives: the namespace's [operation] with the
    tokens it left over, or the end of the process with a status. *)
Inductive parse_result :=
  | Parsed (operation : string) (remaining : list string)
  | ParserExit (status : Z).

(** Modelled from the spec: [awscli.argparser.ServiceArgParser] is
    defined outside [new_command.py]. The requested sub-operation is the
    first remaining token, else the literal [help]; the further tokens are
    left over unparsed; a requested name that is absent from the table is
    a usage error, which ends the process with the host's status for an
    argument-parsing failure. *)
Definition parse_known_args (usage_status : Z) (p : t) (args : list string)
    : parse_result :=
  let requested := default "help" (head args) in
  match operations_table p !! requested with
  | Some _ => Parsed requested (tail args)
  | None => ParserExit usage_status
  end.

End ServiceArgParser.

(** ** class ConfigCommand *)

Module ConfigCommand.

(** Modelled from the spec: the constructor of
    [awscli.clidriver.BuiltInCommand] is defined outside [new_command.py].
    The object keeps its name and its session, which the methods below
    read as [self.name] and [self.session]. *)
Definition new (name : string) (session : value) : M value :=
  l ← alloc (OConfigCommand name session);
  mret (VRef l).

Definition do_foo (self : loc) (remaining_args : list string)
    (parsed_globals : value) : M value :=
  print "do foo now";;
  mret VNone.

Definition do_bar (self : loc) (remaining_args : list string)
    (parsed_globals : value) : M value :=
  print "do bar now";;
  mret VNone.

(** [self.session] *)
Definition get_session (self : loc) : M value :=
  o ← deref (VRef self);
  match o with
  | OConfigCommand _ session => mret session
  | _ => raise AttributeError
  end.

(** [self.name] *)
Definition get_name (self : loc) : M string :=
  o ← deref (VRef self);
  match o with
  | OConfigCommand name _ => mret name
  | _ => raise AttributeError
  end.

Definition _create_operations_table (self : loc) : M value :=
  t ← alloc (ODict ∅);
  let op_table := VRef t in
  dict_setitem op_table "foo" (VMethod self M_do_foo);;
  dict_setitem op_table "bar" (VMethod self M_do_bar);;
  session ← get_session self;
  help ← HelpCommand.new session (VRef self) op_table VNone;
  dict_setitem op_table "help" help;;
  mret op_table.

(** The parser is made from the table as it is at that moment. *)
Definition _create_service_parser (self : loc) (operation_table : value)
    : M ServiceArgParser.t :=
  name ← get_name self;
  o ← deref operation_table;
  match o with
  | ODict m => mret (ServiceArgParser.new m name)
  | _ => raise TypeError
  end.

Definition record_call (f : value) (remaining : list string)
    (parsed_globals : value) : M unit := fun st =>
  (Ret tt, State (heap st) (stdout st)
             (calls st ++ [Call f remaining parsed_globals])).

(** [f(remaining, parsed_globals)] for a value [f] taken from the
    operation table. The application is recorded in [calls]. *)
Definition apply_handler (f : value) (remaining : list string)
    (parsed_globals : value) : M value :=
  match f with
  | VMethod self M_do_foo =>
      record_call f remaining parsed_globals;;
      do_foo self remaining parsed_globals
  | VMethod self M_do_bar =>
      record_call f remaining parsed_globals;;
      do_bar self remaining parsed_globals
  | VRef l =>
      o ← deref f;
      match o with
      | OConfigHelpCommand _ _ _ _ _ =>
          record_call f remaining parsed_globals;;
          HelpCommand.__call__ l remaining parsed_globals
      | _ => raise TypeError
      end
  | _ => raise TypeError
  end.

Section Dispatch.

(** [command_parser.parse_known_args], the host's collaborator. *)
Variable parse_known_args :
  ServiceArgParser.t -> list string -> ServiceArgParser.parse_result.

(** Lines 68 to 72, over the way [call] in which a value taken from the
    table is called on two arguments. *)
Definition dispatch (call : value -> list string -> value -> M value)
    (self : loc) (args : list string) (parsed_globals : value) : M value :=
  op_table ← _create_operations_table self;
  command_parser ← _create_service_parser self op_table;
  match parse_known_args command_parser args with
  | ServiceArgParser.Parsed operation remaining =>
      f ← dict_getitem op_table operation;
      call f remaining parsed_globals
  | ServiceArgParser.ParserExit status => raise (SystemExit status)
  end.

(** [__call__], with the values of this file called as [apply_handler]
    calls them. *)
Definition __call__ (self : loc) (args : list string)
    (parsed_globals : value) : M value :=
  dispatch apply_handler self args parsed_globals.

End Dispatch.

End ConfigCommand.

(** ** The registration hook *)

Definition add_command (command_table session : value) : M value :=
  c ← ConfigCommand.new "config" session;
  dict_setitem command_table "config" c;;
  mret VNone.

(** Modelled from the spec: the host's exit-code contract is its default,
    0 on success and the parser's nonzero status on an argument-parsing
    failure. Any other uncaught exception ends the interpreter with 1. *)
Definition exit_status {A} (r : result A) : Z :=
  match r with
  | Ret _ => 0
  | Raise (SystemExit status) => status
  | Raise _ => 1
  end.

(** ** Specification vocabulary *)

(** The operation table of the command at [self] whose help command is at
    [h]. *)
Definition op_table_of (self h : loc) : gmap string value :=
  <["help" := VRef h]>
    (<["bar" := VMethod self M_do_bar]>
       (<["foo" := VMethod self M_do_foo]> ∅)).

(** The entries of a dict under one key. *)
Definition entries_under (k : string) (d : gmap string value)
    : list (string * value) :=
  filter (fun kv => kv.1 = k) (map_to_list d).

(** [st'] is [st] after steps that apply no table entry, leave every dict
    as it is and leave every help command in place, its document apart. *)
Record extends (st st' : state) : Prop := Extends {
  ext_calls : calls st' = calls st;
  ext_dict : forall l d,
    heap st !! l = Some (ODict d) -> heap st' !! l = Some (ODict d);
  ext_help : forall l s o c a doc,
    heap st !! l = Some (OConfigHelpCommand s o c a doc) ->
    exists doc', heap st' !! l = Some (OConfigHelpCommand s o c a doc') }.

Definition stable {A} (m : M A) : Prop := forall st, extends st (m st).2.

(** A state with a session at 1 and the [config] command at 2. *)
Definition st0 : state :=
  State (<[2%positive := OConfigCommand "config" (VRef 1%positive)]>
           (<[1%positive := OSession []]> ∅)) [] [].

(** A state with a session at 1 and an empty command table at 2. *)
Definition st_table : state :=
  State (<[2%positive := ODict ∅]> (<[1%positive := OSession []]> ∅)) [] [].

(** The heap once the command at [self] has built its table at [t] and
    its help command at [h]. *)
Definition table_heap (self : loc) (session : value) (t h : loc)
    (hp : gmap loc obj) : gmap loc obj :=
  <[t := ODict (op_table_of self h)]>
    (<[h := OConfigHelpCommand session (VRef self) (VRef t) VNone []]> hp).

(** An invocation with verb [op]: on the parser made from the command's
    table, the tokens [args] give the operation [op] and leave
    [remaining]. *)
Definition requests
    (parse_known_args :
       ServiceArgParser.t -> list string -> ServiceArgParser.parse_result)
    (self : loc) (name : string) (args : list string)
    (op : string) (remaining : list string) : Prop :=
  forall h,
    parse_known_args (ServiceArgParser.new (op_table_of self h) name) args
    = ServiceArgParser.Parsed op remaining.

(** ** ConfigDocumentEventHandler.build_translation_map *)

Module Operation.

(** An operation of [self.service.operations], with the two attributes
    that the loop reads. *)
Record t := new {
  name : string;
  cli_name : string }.

End Operation.

(** Lines 30 to 32: the loop over [self.service.operations], with
    [self.translation_map] passed in and returned. The operations are
    visited in order, each one writing [translation_map[op.name]]. *)
Definition build_translation_map (operations : list Operation.t)
    (translation_map : gmap string string) : gmap string string :=
  foldl (fun m op => <[Operation.name op := Operation.cli_name op]> m)
    translation_map operations.

(** The names of a list of operations, in order. *)
Definition operation_names (operations : list Operation.t) : list string :=
  Operation.name <$> operations.

(** ** More specification vocabulary *)

(** The objects that the methods of this file update in place: a
    session's registry and a help command's document. *)
Definition updated_in_place (o : obj) : bool :=
  match o with
  | OSession _ | OConfigHelpCommand _ _ _ _ _ => true
  | _ => false
  end.

(** [m] leaves every object as it is, those of [updated_in_place]
    apart. *)
Definition frames {A} (m : M A) : Prop :=
  forall st l o,
    heap st !! l = Some o -> updated_in_place o = false ->
    heap (m st).2 !! l = Some o.

(** What runs when the value [f] of the table is called on [remaining]
    and [parsed_globals]: the body of [do_foo], of [do_bar], or of the help
    command's [__call__]. *)
Definition handler_body (f : value) (remaining : list string)
    (parsed_globals : value) : M value :=
  match f with
  | VMethod self M_do_foo =>
      ConfigCommand.do_foo self remaining parsed_globals
  | VMethod self M_do_bar =>
      ConfigCommand.do_bar self remaining parsed_globals
  | VRef l => HelpCommand.__call__ l remaining parsed_globals
  | _ => raise TypeError
  end.

(** A way of calling in which every callee prints the tokens it receives,
    one line each, and returns the options it receives. *)
Definition echo_call (f : value) (remaining : list string)
    (parsed_globals : value) : M value := fun st =>
  (Ret parsed_globals,
   State (heap st) (stdout st ++ remaining) (calls st)).

(** A parser that reads [baz] as the operation, whatever the table. *)
Definition parser_baz (p : ServiceArgParser.t) (args : list string)
    : ServiceArgParser.parse_result :=
  ServiceArgParser.Parsed "baz" args.

(** A state whose help command at 3 has [None] as its [obj]. *)
Definition st_help_no_obj : state :=
  State (<[3%positive := OConfigHelpCommand (VRef 1%positive) VNone VNone
                           VNone [H1 "config"]]>
           (<[1%positive := OSession []]> ∅)) [] [].

(** A state with a command constructed under the name [settings] at 2 and
    its help command, with an empty document, at 3. *)
Definition st_settings : state :=
  State (<[3%positive := OConfigHelpCommand (VRef 1%positive)
                           (VRef 2%positive) VNone VNone []]>
           (<[2%positive := OConfigCommand "settings" (VRef 1%positive)]>
              ∅)) [] [].

(** * Properties *)

(** ** Running the monad *)

Lemma fresh_None (hp : gmap loc obj) : hp !! fresh (dom hp) = None.
Proof. apply not_elem_of_dom, is_fresh. Qed.

Lemma bind_run {A B} (m : M A) (f : A -> M B) st a st' :
  m st = (Ret a, st') -> (m ≫= f) st = f a st'.
Proof. intros H. unfold mbind, M_bind. by rewrite H. Qed.

Lemma bind_raise {A B} (m : M A) (f : A -> M B) st e st' :
  m st = (Raise e, st') -> (m ≫= f) st = (Raise e, st').
Proof. intros H. unfold mbind, M_bind. by rewrite H. Qed.

Lemma deref_run hp out cs l o :
  hp !! l = Some o ->
  deref (VRef l) (State hp out cs) = (Ret o, State hp out cs).
Proof. intros H. unfold deref. simpl. by rewrite H. Qed.

Lemma dict_setitem_run hp out cs l m k v :
  hp !! l = Some (ODict m) ->
  dict_setitem (VRef l) k v (State hp out cs)
  = (Ret tt, State (<[l := ODict (<[k := v]> m)]> hp) out cs).
Proof. intros H. unfold dict_setitem. cbn [heap]. by rewrite H. Qed.

Lemma dict_getitem_run hp out cs l m k v :
  hp !! l = Some (ODict m) -> m !! k = Some v ->
  dict_getitem (VRef l) k (State hp out cs) = (Ret v, State hp out cs).
Proof.
  intros H Hk. unfold dict_getitem. cbn [heap]. by rewrite H, Hk.
Qed.

Lemma get_session_run hp out cs self name session :
  hp !! self = Some (OConfigCommand name session) ->
  ConfigCommand.get_session self (State hp out cs)
  = (Ret session, State hp out cs).
Proof.
  intros H. unfold ConfigCommand.get_session.
  by rewrite (bind_run _ _ _ _ _ (deref_run _ _ _ _ _ H)).
Qed.

Lemma get_name_run hp out cs self name session :
  hp !! self = Some (OConfigCommand name session) ->
  ConfigCommand.get_name self (State hp out cs)
  = (Ret name, State hp out cs).
Proof.
  intros H. unfold ConfigCommand.get_name.
  by rewrite (bind_run _ _ _ _ _ (deref_run _ _ _ _ _ H)).
Qed.

(** The table builder in closed form: two new objects, the dict at [t]
    and the help command at [h], each holding a reference to the other. *)
Lemma create_operations_table_run self name session hp out cs :
  hp !! self = Some (OConfigCommand name session) ->
  exists t h : loc,
    hp !! t = None /\ hp !! h = None /\ t <> h /\
    ConfigCommand._create_operations_table self (State hp out cs) =
      (Ret (VRef t),
       State (<[t := ODict (op_table_of self h)]>
                (<[h := OConfigHelpCommand session (VRef self) (VRef t)
                          VNone []]> hp)) out cs).
Proof.
  intros Hself.
  set (t := fresh (dom hp)).
  assert (Ht : hp !! t = None) by apply fresh_None.
  assert (Hst : t <> self) by congruence.
  unfold ConfigCommand._create_operations_table.
  erewrite bind_run by reflexivity. cbn [heap stdout calls set_heap]. fold t.
  erewrite bind_run by (apply dict_setitem_run, lookup_insert_eq).
  erewrite bind_run by (apply dict_setitem_run, lookup_insert_eq).
  rewrite !insert_insert_eq.
  erewrite bind_run by (eapply get_session_run; by rewrite lookup_insert_ne).
  unfold HelpCommand.new.
  erewrite bind_run by (erewrite bind_run by reflexivity; reflexivity).
  cbn [heap stdout calls set_heap].
  match goal with |- context [fresh ?X] => set (h := fresh X) end.
  assert (Hh : <[t := ODict (<["bar" := VMethod self M_do_bar]>
                   (<["foo" := VMethod self M_do_foo]> ∅))]> hp !! h = None)
    by apply fresh_None.
  assert (Hth : t <> h).
  { intros E. rewrite <- E, lookup_insert_eq in Hh. done. }
  rewrite lookup_insert_ne in Hh by done.
  exists t, h. split_and!; try done.
  erewrite bind_run
    by (apply dict_setitem_run; rewrite lookup_insert_ne by done;
        apply lookup_insert_eq).
  unfold mret, M_ret, op_table_of. f_equal. f_equal.
  rewrite (insert_insert_ne _ h t) by done.
  by rewrite insert_insert_eq.
Qed.

(** ** Steps that leave the tables alone *)

Lemma extends_refl st : extends st st.
Proof. split; eauto. Qed.

Lemma extends_trans st1 st2 st3 :
  extends st1 st2 -> extends st2 st3 -> extends st1 st3.
Proof.
  intros [C1 D1 H1] [C2 D2 H2]. split.
  - congruence.
  - eauto.
  - intros l s o c a doc Hl.
    destruct (H1 _ _ _ _ _ _ Hl) as [doc1 Hl1]. eauto.
Qed.

Lemma stable_ret {A} (a : A) : stable (mret a).
Proof. intros st. apply extends_refl. Qed.

Lemma stable_raise {A} e : stable (@raise A e).
Proof. intros st. apply extends_refl. Qed.

Lemma stable_bind {A B} (m : M A) (f : A -> M B) :
  stable m -> (forall a, stable (f a)) -> stable (m ≫= f).
Proof.
  intros Hm Hf st. unfold mbind, M_bind.
  specialize (Hm st). destruct (m st) as [[a|e] st1]; simpl in *.
  - eapply extends_trans; [exact Hm | apply Hf].
  - exact Hm.
Qed.

Lemma stable_deref v : stable (deref v).
Proof.
  intros st. unfold deref.
  destruct v; try apply extends_refl.
  destruct (heap st !! l); apply extends_refl.
Qed.

Lemma stable_alloc o : stable (alloc o).
Proof.
  intros [hp out cs]. unfold alloc. simpl.
  pose proof (fresh_None hp) as Hf.
  split; simpl; try done.
  - intros l d Hl. rewrite lookup_insert_ne; [done | congruence].
  - intros l s ob c a doc Hl. exists doc.
    rewrite lookup_insert_ne; [done | congruence].
Qed.

Lemma stable_doc_write help_command item :
  stable (doc_write help_command item).
Proof.
  intros [hp out cs]. unfold doc_write, deref, mbind, M_bind.
  destruct help_command as [| |l|]; simpl; try apply extends_refl.
  destruct (hp !! l) as [o|] eqn:E; [|apply extends_refl].
  destruct o; simpl; try apply extends_refl.
  split; simpl; try done.
  - intros l' d Hl. rewrite lookup_insert_ne; [done | congruence].
  - intros l' s ob c a doc' Hl.
    destruct (decide (l = l')) as [<-|Hne].
    + rewrite lookup_insert_eq. simplify_eq. eauto.
    + exists doc'. by rewrite lookup_insert_ne.
Qed.

Create HintDb stable discriminated.
#[local] Hint Resolve stable_ret stable_raise stable_deref stable_alloc
  stable_doc_write : stable.

Ltac stable_steps :=
  repeat first
    [ solve [eauto with stable]
    | apply stable_bind; [| intros ?]
    | match goal with |- stable (match ?x with _ => _ end) => destruct x end ].

Lemma stable_title help_command :
  stable (ConfigDocumentEventHandler.title help_command).
Proof.
  unfold ConfigDocumentEventHandler.title, get_name. stable_steps.
Qed.

Lemma stable_description help_command :
  stable (ConfigDocumentEventHandler.description help_command).
Proof.
  unfold ConfigDocumentEventHandler.description, get_obj, get_documentation.
  stable_steps.
Qed.

Lemma stable_render help_command : stable (HelpCommand.render help_command).
Proof.
  unfold HelpCommand.render. apply stable_bind; [apply stable_deref|].
  intros []; try apply stable_raise.
  intros st. by split; eauto.
Qed.

Lemma stable_help_call self args parsed_globals :
  stable (HelpCommand.__call__ self args parsed_globals).
Proof.
  unfold HelpCommand.__call__.
  apply stable_bind; [apply stable_deref|].
  intros []; try apply stable_raise.
  repeat first
    [ apply stable_title
    | apply stable_description
    | apply stable_render
    | apply stable_ret
    | apply stable_bind; [| intros ?] ].
Qed.

(** ** The dispatcher up to the parser's answer *)

Lemma create_service_parser_run hp out cs self name session t m :
  hp !! self = Some (OConfigCommand name session) ->
  hp !! t = Some (ODict m) ->
  ConfigCommand._create_service_parser self (VRef t) (State hp out cs)
  = (Ret (ServiceArgParser.new m name), State hp out cs).
Proof.
  intros Hself Ht. unfold ConfigCommand._create_service_parser.
  erewrite bind_run by (eapply get_name_run; eassumption).
  by erewrite bind_run by (apply deref_run; eassumption).
Qed.

Lemma dispatch_run parse_known_args self name session hp out cs args g :
  hp !! self = Some (OConfigCommand name session) ->
  exists t h : loc,
    hp !! t = None /\ hp !! h = None /\ t <> h /\
    ConfigCommand._create_operations_table self (State hp out cs)
    = (Ret (VRef t), State (table_heap self session t h hp) out cs) /\
    forall call,
    ConfigCommand.dispatch parse_known_args call self args g
      (State hp out cs)
    = match parse_known_args
              (ServiceArgParser.new (op_table_of self h) name) args with
      | ServiceArgParser.Parsed op remaining =>
          (dict_getitem (VRef t) op ≫= fun f => call f remaining g)
            (State (table_heap self session t h hp) out cs)
      | ServiceArgParser.ParserExit status =>
          (Raise (SystemExit status),
           State (table_heap self session t h hp) out cs)
      end.
Proof.
  intros Hself.
  destruct (create_operations_table_run self name session hp out cs Hself)
    as (t & h & Ht & Hh & Hth & Hrun).
  exists t, h. split_and!; try done.
  intros call. unfold ConfigCommand.dispatch.
  erewrite bind_run by exact Hrun.
  erewrite bind_run.
  2:{ eapply create_service_parser_run.
      - unfold table_heap. rewrite !lookup_insert_ne by congruence. eassumption.
      - apply lookup_insert_eq. }
  by destruct (parse_known_args _ args).
Qed.

Lemma call_run parse_known_args self name session hp out cs args g :
  hp !! self = Some (OConfigCommand name session) ->
  exists t h : loc,
    hp !! t = None /\ hp !! h = None /\ t <> h /\
    ConfigCommand._create_operations_table self (State hp out cs)
    = (Ret (VRef t), State (table_heap self session t h hp) out cs) /\
    ConfigCommand.__call__ parse_known_args self args g (State hp out cs)
    = match parse_known_args
              (ServiceArgParser.new (op_table_of self h) name) args with
      | ServiceArgParser.Parsed op remaining =>
          (dict_getitem (VRef t) op ≫= fun f =>
           ConfigCommand.apply_handler f remaining g)
            (State (table_heap self session t h hp) out cs)
      | ServiceArgParser.ParserExit status =>
          (Raise (SystemExit status),
           State (table_heap self session t h hp) out cs)
      end.
Proof.
  intros Hself. unfold ConfigCommand.__call__.
  destruct (dispatch_run parse_known_args self name session hp out cs args g
              Hself)
    as (t & h & Ht & Hh & Hth & Hcreate & Hcall).
  exists t, h. by rewrite Hcall.
Qed.

Lemma op_table_of_lookup self h op :
  op = "foo" \/ op = "bar" \/ op = "help" ->
  exists f, op_table_of self h !! op = Some f /\
    (op = "foo" -> f = VMethod self M_do_foo) /\
    (op = "bar" -> f = VMethod self M_do_bar) /\
    (op = "help" -> f = VRef h).
Proof.
  intros [-> | [-> | ->]]; eexists; (split; [reflexivity|]);
    split_and!; intros; done.
Qed.

Lemma op_table_of_absent self h op :
  op <> "foo" -> op <> "bar" -> op <> "help" ->
  op_table_of self h !! op = None.
Proof.
  intros. unfold op_table_of.
  rewrite !lookup_insert_ne by done. apply lookup_empty.
Qed.

Lemma apply_method_run self m line hp out cs remaining g :
  (m = M_do_foo /\ line = "do foo now") \/
  (m = M_do_bar /\ line = "do bar now") ->
  ConfigCommand.apply_handler (VMethod self m) remaining g (State hp out cs)
  = (Ret VNone,
     State hp (out ++ [line]) (cs ++ [Call (VMethod self m) remaining g])).
Proof. by intros [[-> ->] | [-> ->]]. Qed.

Lemma apply_help_run h s o c a doc hp out cs remaining g :
  hp !! h = Some (OConfigHelpCommand s o c a doc) ->
  ConfigCommand.apply_handler (VRef h) remaining g (State hp out cs)
  = HelpCommand.__call__ h remaining g
      (State hp out (cs ++ [Call (VRef h) remaining g])).
Proof.
  intros Hh. unfold ConfigCommand.apply_handler.
  erewrite bind_run by (apply deref_run; eassumption).
  cbv beta iota.
  by erewrite bind_run by reflexivity.
Qed.

(** ** The sub-operations *)

(** C9. Each of [do_foo] and [do_bar], on every receiver, token list,
    global options and state, raises nothing, returns [None], and changes
    the state in one way only: its fixed line is appended to standard
    output; the heap and the record of applications stay as they are. *)
Theorem do_foo_do_bar_print_one_line :
  forall self remaining_args parsed_globals st,
    ConfigCommand.do_foo self remaining_args parsed_globals st
    = (Ret VNone, State (heap st) (stdout st ++ ["do foo now"]) (calls st))
    /\
    ConfigCommand.do_bar self remaining_args parsed_globals st
    = (Ret VNone, State (heap st) (stdout st ++ ["do bar now"]) (calls st)).
Proof. intros. by split. Qed.

(** C1. When the [config] command is invoked with verb [foo] (or [bar]),
    whatever the parser is that reads that verb from the tokens, the call
    returns [None], so the exit status is 0, and standard output gains
    exactly the line [do foo now] (or [do bar now]). *)
Theorem foo_bar_output_and_exit_status
    parse_known_args self name session args verb remaining g st :
  heap st !! self = Some (OConfigCommand name session) ->
  verb = "foo" \/ verb = "bar" ->
  requests parse_known_args self name args verb remaining ->
  let r := ConfigCommand.__call__ parse_known_args self args g st in
  r.1 = Ret VNone /\
  exit_status r.1 = 0%Z /\
  stdout r.2 = stdout st ++ ["do " +:+ verb +:+ " now"].
Proof.
  destruct st as [hp out cs]. simpl. intros Hself Hverb Hreq.
  destruct (call_run parse_known_args self name session hp out cs args g Hself)
    as (t & h & _ & _ & _ & _ & ->).
  rewrite (Hreq h).
  destruct (op_table_of_lookup self h verb) as (f & Hf & Hfoo & Hbar & _);
    [tauto|].
  erewrite bind_run
    by (eapply dict_getitem_run; [apply lookup_insert_eq | exact Hf]).
  destruct Hverb as [-> | ->].
  - rewrite Hfoo by done.
    by erewrite apply_method_run by (left; done).
  - rewrite Hbar by done.
    by erewrite apply_method_run by (right; done).
Qed.

Lemma foo_bar_output_and_exit_status_witness :
  let r := ConfigCommand.__call__ (ServiceArgParser.parse_known_args 2)
             2%positive ["foo"; "--dry-run"] VNone st0 in
  r.1 = Ret VNone /\ exit_status r.1 = 0%Z /\
  stdout r.2 = [] ++ ["do " +:+ "foo" +:+ " now"].
Proof.
  apply (foo_bar_output_and_exit_status _ 2%positive "config"
           (VRef 1%positive) ["foo"; "--dry-run"] "foo" ["--dry-run"]).
  - reflexivity.
  - left. reflexivity.
  - intros h. reflexivity.
Defined.

(** C6. Whatever the parser, when it reads the operation [op] from the
    tokens and leaves [remaining], the dispatcher calls the table's entry
    for [op] on exactly [remaining] (same tokens, same order) and the
    global options it was given. This holds for every way [call] of
    calling a value, so also for callees that look at their arguments: the
    outcome of the dispatcher is the outcome of that one call, made in the
    state that the table builder leaves. With the handlers of the source,
    the body of the selected handler ([do_foo], [do_bar] or the help
    command) runs on [remaining] and the options, after the one
    application has been recorded. *)
Theorem remaining_tokens_passed_through
    call parse_known_args self name session args op remaining g st :
  heap st !! self = Some (OConfigCommand name session) ->
  op = "foo" \/ op = "bar" \/ op = "help" ->
  requests parse_known_args self name args op remaining ->
  exists t h f,
    ConfigCommand._create_operations_table self st
    = (Ret (VRef t), State (table_heap self session t h (heap st))
                       (stdout st) (calls st)) /\
    op_table_of self h !! op = Some f /\
    ConfigCommand.dispatch parse_known_args call self args g st
    = call f remaining g
        (State (table_heap self session t h (heap st))
           (stdout st) (calls st)) /\
    ConfigCommand.__call__ parse_known_args self args g st
    = handler_body f remaining g
        (State (table_heap self session t h (heap st))
           (stdout st) (calls st ++ [Call f remaining g])) /\
    calls (ConfigCommand.__call__ parse_known_args self args g st).2
    = calls st ++ [Call f remaining g].
Proof.
  destruct st as [hp out cs]. cbn [heap stdout calls]. intros Hself Hop Hreq.
  destruct (dispatch_run parse_known_args self name session hp out cs
              args g Hself)
    as (t & h & _ & _ & Hth & Hcreate & Hcall).
  unfold ConfigCommand.__call__.
  rewrite !Hcall, (Hreq h).
  destruct (op_table_of_lookup self h op Hop)
    as (f & Hf & Hfoo & Hbar & Hhelp).
  exists t, h, f.
  assert (Hhp : table_heap self session t h hp !! h
                = Some (OConfigHelpCommand session (VRef self) (VRef t)
                          VNone [])).
  { unfold table_heap. rewrite lookup_insert_ne by done.
    apply lookup_insert_eq. }
  split; [done|]. split; [done|]. split.
  { by erewrite bind_run
      by (eapply dict_getitem_run; [apply lookup_insert_eq | exact Hf]). }
  erewrite !bind_run
    by (eapply dict_getitem_run; [apply lookup_insert_eq | exact Hf]).
  destruct Hop as [-> | [-> | ->]].
  - rewrite Hfoo by done. by erewrite apply_method_run by (left; done).
  - rewrite Hbar by done. by erewrite apply_method_run by (right; done).
  - rewrite Hhelp by done. unfold handler_body.
    erewrite apply_help_run by exact Hhp.
    split; [done|].
    by destruct (stable_help_call h remaining g
                   (State (table_heap self session t h hp) out
                      (cs ++ [Call (VRef h) remaining g]))) as [-> _ _].
Qed.

Lemma remaining_tokens_passed_through_witness :
  exists t h f,
    ConfigCommand._create_operations_table 2%positive st0
    = (Ret (VRef t),
       State (table_heap 2%positive (VRef 1%positive) t h (heap st0))
         (stdout st0) (calls st0)) /\
    op_table_of 2%positive h !! "bar" = Some f /\
    ConfigCommand.dispatch (ServiceArgParser.parse_known_args 2) echo_call
      2%positive ["bar"; "--x"; "y"; "--x"] (VStr "globals") st0
    = echo_call f ["--x"; "y"; "--x"] (VStr "globals")
        (State (table_heap 2%positive (VRef 1%positive) t h (heap st0))
           (stdout st0) (calls st0)) /\
    ConfigCommand.__call__ (ServiceArgParser.parse_known_args 2)
      2%positive ["bar"; "--x"; "y"; "--x"] (VStr "globals") st0
    = handler_body f ["--x"; "y"; "--x"] (VStr "globals")
        (State (table_heap 2%positive (VRef 1%positive) t h (heap st0))
           (stdout st0)
           (calls st0 ++ [Call f ["--x"; "y"; "--x"] (VStr "globals")])) /\
    calls (ConfigCommand.__call__ (ServiceArgParser.parse_known_args 2)
             2%positive ["bar"; "--x"; "y"; "--x"]
             (VStr "globals") st0).2
    = calls st0 ++ [Call f ["--x"; "y"; "--x"] (VStr "globals")].
Proof.
  apply (remaining_tokens_passed_through echo_call _ 2%positive "config"
           (VRef 1%positive) ["bar"; "--x"; "y"; "--x"] "bar"
           ["--x"; "y"; "--x"]).
  - reflexivity.
  - right. left. reflexivity.
  - intros h. reflexivity.
Defined.

Lemma op_table_of_lookup_inv self h k f :
  op_table_of self h !! k = Some f ->
  (k = "foo" /\ f = VMethod self M_do_foo) \/
  (k = "bar" /\ f = VMethod self M_do_bar) \/
  (k = "help" /\ f = VRef h).
Proof.
  unfold op_table_of. rewrite !lookup_insert.
  repeat case_decide; intros Hk; simplify_eq; eauto.
Qed.

(** ** Unknown verbs *)

(** C2. With the host's parser, a first token other than [foo], [bar] and
    [help] ends the invocation with the parser's usage error: the process
    exit status is the parser's nonzero status, nothing is printed, and no
    entry of the table, so neither [do_foo] nor [do_bar], is applied. *)
Theorem unknown_verb_is_usage_error
    usage_status self name session tok rest g st :
  usage_status <> 0%Z ->
  heap st !! self = Some (OConfigCommand name session) ->
  tok <> "foo" -> tok <> "bar" -> tok <> "help" ->
  let r := ConfigCommand.__call__
             (ServiceArgParser.parse_known_args usage_status)
             self (tok :: rest) g st in
  r.1 = Raise (SystemExit usage_status) /\
  exit_status r.1 <> 0%Z /\
  stdout r.2 = stdout st /\
  calls r.2 = calls st.
Proof.
  destruct st as [hp out cs]. simpl. intros Hu Hself Hfoo Hbar Hhelp.
  destruct (call_run (ServiceArgParser.parse_known_args usage_status)
              self name session hp out cs (tok :: rest) g Hself)
    as (t & h & _ & _ & _ & _ & ->).
  unfold ServiceArgParser.parse_known_args. simpl.
  by rewrite op_table_of_absent.
Qed.

Lemma unknown_verb_is_usage_error_witness :
  let r := ConfigCommand.__call__ (ServiceArgParser.parse_known_args 2)
             2%positive ["baz"; "foo"] VNone st0 in
  r.1 = Raise (SystemExit 2) /\
  exit_status r.1 <> 0%Z /\
  stdout r.2 = stdout st0 /\
  calls r.2 = calls st0.
Proof.
  apply (unknown_verb_is_usage_error 2 2%positive "config" (VRef 1%positive)
           "baz" ["foo"] VNone st0).
  - lia.
  - reflexivity.
  - discriminate.
  - discriminate.
  - discriminate.
Defined.

(** ** The help renderer *)

Lemma doc_write_run hp out cs h s o c a doc item :
  hp !! h = Some (OConfigHelpCommand s o c a doc) ->
  doc_write (VRef h) item (State hp out cs)
  = (Ret tt,
     State (<[h := OConfigHelpCommand s o c a (doc ++ [item])]> hp) out cs).
Proof.
  intros H. unfold doc_write.
  by erewrite bind_run by (apply deref_run; eassumption).
Qed.

Lemma title_run hp out cs h s o c a doc :
  hp !! h = Some (OConfigHelpCommand s o c a doc) ->
  ConfigDocumentEventHandler.title (VRef h) (State hp out cs)
  = (Ret VNone,
     State (<[h := OConfigHelpCommand s o c a (doc ++ [H1 "config"])]> hp)
       out cs).
Proof.
  intros H. unfold ConfigDocumentEventHandler.title, get_name.
  erewrite bind_run
    by (erewrite bind_run by (apply deref_run; eassumption); reflexivity).
  by erewrite bind_run by (eapply doc_write_run; eassumption).
Qed.

Lemma description_run hp out cs h s self name session c a doc :
  hp !! h = Some (OConfigHelpCommand s (VRef self) c a doc) ->
  hp !! self = Some (OConfigCommand name session) ->
  ConfigDocumentEventHandler.description (VRef h) (State hp out cs)
  = (Ret VNone,
     State (<[h := OConfigHelpCommand s (VRef self) c a
                     (doc ++ [H2 "Description"; DocString documentation])]>
              hp) out cs).
Proof.
  intros H Hself.
  assert (h <> self) by congruence.
  unfold ConfigDocumentEventHandler.description, get_obj, get_documentation.
  erewrite bind_run
    by (erewrite bind_run by (apply deref_run; eassumption); reflexivity).
  erewrite bind_run by (eapply doc_write_run; eassumption).
  erewrite bind_run
    by (erewrite bind_run
          by (apply deref_run; rewrite lookup_insert_ne by done;
              eassumption);
        reflexivity).
  erewrite bind_run by (eapply doc_write_run; apply lookup_insert_eq).
  by rewrite insert_insert_eq, <- app_assoc.
Qed.




(** ** The operation table *)

Lemma op_table_of_dom self h :
  dom (op_table_of self h) = ({["foo"; "bar"; "help"]} : gset string).
Proof. unfold op_table_of. rewrite !dom_insert_L, dom_empty_L. set_solver. Qed.

Lemma op_table_of_size self h : size (op_table_of self h) = 3.
Proof.
  unfold op_table_of.
  rewrite !map_size_insert_None, map_size_empty; [done|..];
    by rewrite ?lookup_insert_ne.
Qed.

(** Applying an entry of the table leaves every dict as it is and every
    help command in place. *)
Lemma apply_handler_keeps f remaining g st :
  let st' := (ConfigCommand.apply_handler f remaining g st).2 in
  (forall l d, heap st !! l = Some (ODict d) ->
               heap st' !! l = Some (ODict d)) /\
  (forall l s o c a doc,
     heap st !! l = Some (OConfigHelpCommand s o c a doc) ->
     exists doc', heap st' !! l = Some (OConfigHelpCommand s o c a doc')).
Proof.
  destruct st as [hp out cs]. intros st'. subst st'.
  unfold ConfigCommand.apply_handler.
  destruct f as [| |l|self []]; try (split; by eauto).
  cbn [heap]. destruct (hp !! l) as [o|] eqn:E.
  - erewrite !bind_run by (apply deref_run; exact E).
    destruct o; try (split; by eauto).
    erewrite !bind_run by reflexivity.
    destruct (stable_help_call l remaining g
                (State hp out (cs ++ [Call (VRef l) remaining g])))
      as [_ Hd Hh].
    split; [exact Hd | exact Hh].
  - erewrite !bind_raise by (unfold deref; cbn [heap]; by rewrite E).
    split; by eauto.
Qed.

Lemma stable_dict_getitem d k : stable (dict_getitem d k).
Proof.
  intros st. unfold dict_getitem.
  destruct d as [| |l|]; try apply extends_refl.
  destruct (heap st !! l) as [[m| | | |]|]; try apply extends_refl.
  destruct (m !! k); apply extends_refl.
Qed.

Lemma dispatch_keeps t op remaining g st :
  let st' := ((dict_getitem (VRef t) op ≫= fun f =>
               ConfigCommand.apply_handler f remaining g) st).2 in
  (forall l d, heap st !! l = Some (ODict d) ->
               heap st' !! l = Some (ODict d)) /\
  (forall l s o c a doc,
     heap st !! l = Some (OConfigHelpCommand s o c a doc) ->
     exists doc', heap st' !! l = Some (OConfigHelpCommand s o c a doc')).
Proof.
  intros st'. subst st'. unfold mbind, M_bind.
  pose proof (stable_dict_getitem (VRef t) op st) as [_ Hd Hh].
  destruct (dict_getitem (VRef t) op st) as [[f|e] st1]; simpl in *.
  - destruct (apply_handler_keeps f remaining g st1) as [Hd' Hh'].
    split; [by eauto|].
    intros l s o c a doc Hl. destruct (Hh _ _ _ _ _ _ Hl) as [doc1 Hl1].
    eauto.
  - split; eauto.
Qed.

(** C7. On every invocation of the dispatcher, whatever the parser, the
    tokens and the options, a new dict is built at a location that held
    nothing before; when the invocation ends that dict has exactly the
    keys [foo], [bar] and [help], each once (three entries), with [foo]
    bound to [do_foo] of the command, [bar] to [do_bar] of the command and
    [help] to a reference to a [ConfigHelpCommand] object. *)
Theorem operations_table_built_fresh
    parse_known_args self name session args g st :
  heap st !! self = Some (OConfigCommand name session) ->
  let st' := (ConfigCommand.__call__ parse_known_args self args g st).2 in
  exists t h d,
    heap st !! t = None /\
    ConfigCommand._create_operations_table self st
    = (Ret (VRef t), State (table_heap self session t h (heap st))
                       (stdout st) (calls st)) /\
    heap st' !! t = Some (ODict d) /\
    dom d = ({["foo"; "bar"; "help"]} : gset string) /\
    NoDup (map_to_list d).*1 /\
    length (map_to_list d) = 3 /\
    d !! "foo" = Some (VMethod self M_do_foo) /\
    d !! "bar" = Some (VMethod self M_do_bar) /\
    d !! "help" = Some (VRef h) /\
    exists doc,
      heap st' !! h
      = Some (OConfigHelpCommand session (VRef self) (VRef t) VNone doc).
Proof.
  destruct st as [hp out cs]. cbn [heap stdout calls]. intros Hself.
  destruct (call_run parse_known_args self name session hp out cs args g
              Hself)
    as (t & h & Htf & Hhf & Hth & Hcreate & ->).
  exists t, h, (op_table_of self h).
  assert (Htab : table_heap self session t h hp !! t
                 = Some (ODict (op_table_of self h)))
    by apply lookup_insert_eq.
  assert (Hhelp : table_heap self session t h hp !! h
                  = Some (OConfigHelpCommand session (VRef self)
                            (VRef t) VNone [])).
  { unfold table_heap. rewrite lookup_insert_ne by done.
    apply lookup_insert_eq. }
  split_and!.
  - done.
  - done.
  - destruct (parse_known_args _ args) as [op remaining|status]; [|done].
    by apply dispatch_keeps.
  - apply op_table_of_dom.
  - apply NoDup_fst_map_to_list.
  - rewrite length_map_to_list. apply op_table_of_size.
  - done.
  - done.
  - done.
  - destruct (parse_known_args _ args) as [op remaining|status]; [|by eauto].
    by eapply dispatch_keeps.
Qed.

Lemma operations_table_built_fresh_witness :
  let st' := (ConfigCommand.__call__ (ServiceArgParser.parse_known_args 2)
                2%positive ["help"; "foo"] VNone st0).2 in
  exists t h d,
    heap st0 !! t = None /\
    ConfigCommand._create_operations_table 2%positive st0
    = (Ret (VRef t),
       State (table_heap 2%positive (VRef 1%positive) t h (heap st0))
         (stdout st0) (calls st0)) /\
    heap st' !! t = Some (ODict d) /\
    dom d = ({["foo"; "bar"; "help"]} : gset string) /\
    NoDup (map_to_list d).*1 /\
    length (map_to_list d) = 3 /\
    d !! "foo" = Some (VMethod 2%positive M_do_foo) /\
    d !! "bar" = Some (VMethod 2%positive M_do_bar) /\
    d !! "help" = Some (VRef h) /\
    exists doc,
      heap st' !! h
      = Some (OConfigHelpCommand (VRef 1%positive) (VRef 2%positive)
                (VRef t) VNone doc).
Proof.
  apply (operations_table_built_fresh _ 2%positive "config"
           (VRef 1%positive) ["help"; "foo"] VNone st0).
  reflexivity.
Defined.

(** C10. The help command that the table builder stores under [help] is
    constructed with [command_table] set to a reference to the table
    itself: when the builder returns the table at [t], the help command at
    [h] holds [VRef t] as its command table, and the dict at [t] holds
    [foo], [bar] and, under [help], the reference [VRef h] to that very
    help command. *)
Theorem help_command_table_is_the_operations_table self name session st :
  heap st !! self = Some (OConfigCommand name session) ->
  exists t h st' d,
    ConfigCommand._create_operations_table self st = (Ret (VRef t), st') /\
    heap st' !! h
    = Some (OConfigHelpCommand session (VRef self) (VRef t) VNone []) /\
    heap st' !! t = Some (ODict d) /\
    d !! "help" = Some (VRef h) /\
    d !! "foo" = Some (VMethod self M_do_foo) /\
    d !! "bar" = Some (VMethod self M_do_bar).
Proof.
  destruct st as [hp out cs]. cbn [heap]. intros Hself.
  destruct (create_operations_table_run self name session hp out cs Hself)
    as (t & h & _ & _ & Hth & Hrun).
  exists t, h, (State (table_heap self session t h hp) out cs),
    (op_table_of self h).
  split_and!; try done.
  - cbn [heap]. unfold table_heap. rewrite lookup_insert_ne by done.
    apply lookup_insert_eq.
  - apply lookup_insert_eq.
Qed.

Lemma help_command_table_is_the_operations_table_witness :
  exists t h st' d,
    ConfigCommand._create_operations_table 2%positive st0
    = (Ret (VRef t), st') /\
    heap st' !! h
    = Some (OConfigHelpCommand (VRef 1%positive) (VRef 2%positive) (VRef t)
              VNone []) /\
    heap st' !! t = Some (ODict d) /\
    d !! "help" = Some (VRef h) /\
    d !! "foo" = Some (VMethod 2%positive M_do_foo) /\
    d !! "bar" = Some (VMethod 2%positive M_do_bar).
Proof.
  apply (help_command_table_is_the_operations_table 2%positive "config"
           (VRef 1%positive) st0).
  reflexivity.
Defined.

(** ** The registration hook *)

(** The hook in closed form: one new command object at [c], and the
    table's entry under [config] set to a reference to it. *)
Lemma add_command_run hp out cs ct d session :
  hp !! ct = Some (ODict d) ->
  exists c : loc,
    hp !! c = None /\ c <> ct /\
    add_command (VRef ct) session (State hp out cs)
    = (Ret VNone,
       State (<[ct := ODict (<["config" := VRef c]> d)]>
                (<[c := OConfigCommand "config" session]> hp)) out cs).
Proof.
  intros Hct.
  set (c := fresh (dom hp)).
  assert (Hc : hp !! c = None) by apply fresh_None.
  assert (Hne : c <> ct) by congruence.
  exists c. split_and!; try done.
  unfold add_command, ConfigCommand.new.
  erewrite bind_run by (erewrite bind_run by reflexivity; reflexivity).
  cbn [heap stdout calls set_heap]. fold c.
  by erewrite bind_run
    by (apply dict_setitem_run; rewrite lookup_insert_ne by done;
        eassumption).
Qed.

Lemma entries_under_insert k v (d : gmap string value) :
  entries_under k (<[k := v]> d) = [(k, v)].
Proof.
  apply Permutation_singleton_r. unfold entries_under.
  rewrite <- insert_delete_eq.
  rewrite map_to_list_insert by apply lookup_delete_eq.
  rewrite filter_cons_True by done.
  apply Permutation_skip.
  destruct (filter _ (map_to_list (delete k d))) as [|[k' v'] rest] eqn:E;
    [done|].
  assert (Hin : (k', v') ∈ filter (fun kv : string * value => kv.1 = k)
                  (map_to_list (delete k d)))
    by (rewrite E; left).
  apply list_elem_of_filter in Hin as [Hk Hin]. simpl in Hk. subst k'.
  apply elem_of_map_to_list in Hin. by rewrite lookup_delete_eq in Hin.
Qed.

(** C8. On a command table [d], the hook returns [None] and raises
    nothing; it makes one new [config] command object at a location that
    held nothing, and binds the key [config] of the table to it. Every
    other key of the table keeps its entry, every other object of the heap
    (the session among them) stays as it is, and nothing is printed or
    applied. *)
Theorem add_command_only_inserts_config ct d session st :
  heap st !! ct = Some (ODict d) ->
  exists c st',
    add_command (VRef ct) session st = (Ret VNone, st') /\
    heap st !! c = None /\
    heap st' !! c = Some (OConfigCommand "config" session) /\
    heap st' !! ct = Some (ODict (<["config" := VRef c]> d)) /\
    (forall k, k <> "config" -> (<["config" := VRef c]> d) !! k = d !! k) /\
    (forall l, l <> ct -> l <> c -> heap st' !! l = heap st !! l) /\
    stdout st' = stdout st /\
    calls st' = calls st.
Proof.
  destruct st as [hp out cs]. cbn [heap]. intros Hct.
  destruct (add_command_run hp out cs ct d session Hct)
    as (c & Hc & Hne & Hrun).
  eexists c, _. split; [exact Hrun|]. cbn [heap stdout calls].
  split_and!.
  - done.
  - rewrite lookup_insert_ne by done. apply lookup_insert_eq.
  - apply lookup_insert_eq.
  - intros k Hk. by rewrite lookup_insert_ne.
  - intros l Hl1 Hl2. by rewrite !lookup_insert_ne.
  - done.
  - done.
Qed.

Lemma add_command_only_inserts_config_witness :
  exists c st',
    add_command (VRef 2%positive) (VRef 1%positive) st_table
    = (Ret VNone, st') /\
    heap st_table !! c = None /\
    heap st' !! c = Some (OConfigCommand "config" (VRef 1%positive)) /\
    heap st' !! 2%positive = Some (ODict (<["config" := VRef c]> ∅)) /\
    (forall k, k <> "config" ->
       (<["config" := VRef c]> (∅ : gmap string value)) !! k
       = (∅ : gmap string value) !! k) /\
    (forall l, l <> 2%positive -> l <> c ->
       heap st' !! l = heap st_table !! l) /\
    stdout st' = stdout st_table /\
    calls st' = calls st_table.
Proof.
  apply (add_command_only_inserts_config 2%positive ∅ (VRef 1%positive)
           st_table).
  reflexivity.
Defined.

(** C5. Calling the hook twice on the same command table raises nothing:
    both calls return [None], and afterwards the table has exactly one
    entry under the key [config], the command object made by the second
    call (which is not the object of the first call); the other keys keep
    their entries. *)
Theorem add_command_twice_last_write_wins ct d session1 session2 st :
  heap st !! ct = Some (ODict d) ->
  exists c1 c2 st1 st2 d2,
    add_command (VRef ct) session1 st = (Ret VNone, st1) /\
    add_command (VRef ct) session2 st1 = (Ret VNone, st2) /\
    c1 <> c2 /\
    heap st1 !! ct = Some (ODict (<["config" := VRef c1]> d)) /\
    heap st2 !! ct = Some (ODict d2) /\
    entries_under "config" d2 = [("config", VRef c2)] /\
    heap st2 !! c2 = Some (OConfigCommand "config" session2) /\
    (forall k, k <> "config" -> d2 !! k = d !! k).
Proof.
  destruct st as [hp out cs]. cbn [heap]. intros Hct.
  destruct (add_command_run hp out cs ct d session1 Hct)
    as (c1 & Hc1 & Hne1 & Hrun1).
  set (hp1 := <[ct := ODict (<["config" := VRef c1]> d)]>
                (<[c1 := OConfigCommand "config" session1]> hp)) in *.
  assert (Hct1 : hp1 !! ct = Some (ODict (<["config" := VRef c1]> d)))
    by apply lookup_insert_eq.
  destruct (add_command_run hp1 out cs ct _ session2 Hct1)
    as (c2 & Hc2 & Hne2 & Hrun2).
  assert (Hc12 : c1 <> c2).
  { intros <-. unfold hp1 in Hc2.
    rewrite lookup_insert_ne, lookup_insert_eq in Hc2 by done. done. }
  eexists c1, c2, _, _, _.
  split; [exact Hrun1|]. split; [exact Hrun2|]. cbn [heap].
  split_and!.
  - done.
  - done.
  - apply lookup_insert_eq.
  - rewrite insert_insert_eq. apply entries_under_insert.
  - rewrite lookup_insert_ne by done. apply lookup_insert_eq.
  - intros k Hk. by rewrite !lookup_insert_ne.
Qed.

Lemma add_command_twice_last_write_wins_witness :
  exists c1 c2 st1 st2 d2,
    add_command (VRef 2%positive) (VRef 1%positive) st_table
    = (Ret VNone, st1) /\
    add_command (VRef 2%positive) (VRef 1%positive) st1 = (Ret VNone, st2) /\
    c1 <> c2 /\
    heap st1 !! 2%positive = Some (ODict (<["config" := VRef c1]> ∅)) /\
    heap st2 !! 2%positive = Some (ODict d2) /\
    entries_under "config" d2 = [("config", VRef c2)] /\
    heap st2 !! c2 = Some (OConfigCommand "config" (VRef 1%positive)) /\
    (forall k, k <> "config" -> d2 !! k = (∅ : gmap string value) !! k).
Proof.
  apply (add_command_twice_last_write_wins 2%positive ∅ (VRef 1%positive)
           (VRef 1%positive) st_table).
  reflexivity.
Defined.

(** * Further properties of the code *)

(** ** What a method leaves as it is *)

Lemma frames_heap_eq {A} (m : M A) :
  (forall st, heap (m st).2 = heap st) -> frames m.
Proof. intros H st l o Hl _. by rewrite H. Qed.

Lemma frames_bind {A B} (m : M A) (f : A -> M B) :
  frames m -> (forall a, frames (f a)) -> frames (m ≫= f).
Proof.
  intros Hm Hf st l o Hl Ho. unfold mbind, M_bind.
  specialize (Hm st l o Hl Ho).
  destruct (m st) as [[a|e] st1]; simpl in *; [|done].
  by apply Hf.
Qed.

Lemma frames_ret {A} (a : A) : frames (mret a).
Proof. by apply frames_heap_eq. Qed.

Lemma frames_raise {A} e : frames (@raise A e).
Proof. by apply frames_heap_eq. Qed.

Lemma frames_deref v : frames (deref v).
Proof.
  apply frames_heap_eq. intros st. unfold deref.
  destruct v; try done. by destruct (heap st !! l).
Qed.

Lemma frames_alloc o : frames (alloc o).
Proof.
  intros [hp out cs] l o' Hl _. unfold alloc. simpl in *.
  pose proof (fresh_None hp). rewrite lookup_insert_ne; [done | congruence].
Qed.

Lemma frames_doc_write help_command item :
  frames (doc_write help_command item).
Proof.
  intros [hp out cs] l' o' Hl Ho.
  unfold doc_write, deref, mbind, M_bind.
  destruct help_command as [| |l|]; simpl; try done.
  destruct (hp !! l) as [o|] eqn:E; [|done].
  destruct o; simpl; try done.
  rewrite lookup_insert_ne; [done|]. intros <-. simpl in *.
  rewrite E in Hl. by simplify_eq.
Qed.

Create HintDb frames discriminated.
#[local] Hint Resolve frames_ret frames_raise frames_deref frames_alloc
  frames_doc_write : frames.

Ltac frames_steps :=
  repeat first
    [ solve [eauto with frames]
    | apply frames_bind; [| intros ?]
    | match goal with |- frames (match ?x with _ => _ end) => destruct x end ].

Lemma frames_title help_command :
  frames (ConfigDocumentEventHandler.title help_command).
Proof.
  unfold ConfigDocumentEventHandler.title, get_name. frames_steps.
Qed.

Lemma frames_description help_command :
  frames (ConfigDocumentEventHandler.description help_command).
Proof.
  unfold ConfigDocumentEventHandler.description, get_obj, get_documentation.
  frames_steps.
Qed.

Lemma frames_render help_command : frames (HelpCommand.render help_command).
Proof.
  unfold HelpCommand.render. apply frames_bind; [apply frames_deref|].
  intros []; try apply frames_raise.
  by apply frames_heap_eq.
Qed.

Lemma frames_help_call self args parsed_globals :
  frames (HelpCommand.__call__ self args parsed_globals).
Proof.
  unfold HelpCommand.__call__.
  apply frames_bind; [apply frames_deref|].
  intros []; try apply frames_raise.
  repeat first
    [ apply frames_title
    | apply frames_description
    | apply frames_render
    | apply frames_ret
    | apply frames_bind; [| intros ?] ].
Qed.

Lemma frames_dict_getitem d k : frames (dict_getitem d k).
Proof.
  apply frames_heap_eq. intros st. unfold dict_getitem.
  destruct d as [| |l|]; try done.
  destruct (heap st !! l) as [[m| | | |]|]; try done.
  by destruct (m !! k).
Qed.

Lemma frames_apply_handler f remaining g :
  frames (ConfigCommand.apply_handler f remaining g).
Proof.
  unfold ConfigCommand.apply_handler.
  destruct f as [| |l|self []]; try apply frames_raise.
  - apply frames_bind; [apply frames_deref|].
    intros []; try apply frames_raise.
    apply frames_bind; [by apply frames_heap_eq|].
    intros _. apply frames_help_call.
  - by apply frames_heap_eq.
  - by apply frames_heap_eq.
Qed.

Lemma table_heap_frame self session t h hp l o :
  hp !! t = None -> hp !! h = None -> hp !! l = Some o ->
  table_heap self session t h hp !! l = Some o.
Proof.
  intros Ht Hh Hl. unfold table_heap.
  rewrite !lookup_insert_ne by congruence. done.
Qed.

Lemma dict_getitem_missing hp out cs l m k :
  hp !! l = Some (ODict m) -> m !! k = None ->
  dict_getitem (VRef l) k (State hp out cs)
  = (Raise (KeyError k), State hp out cs).
Proof.
  intros H Hk. unfold dict_getitem. cbn [heap]. by rewrite H, Hk.
Qed.

(** The dispatcher after the parser's answer: what it prints. *)
Lemma dispatch_stdout self t h hp1 out cs op remaining g :
  hp1 !! t = Some (ODict (op_table_of self h)) ->
  (exists s o c a doc, hp1 !! h = Some (OConfigHelpCommand s o c a doc)) ->
  let r := (dict_getitem (VRef t) op ≫= fun f =>
            ConfigCommand.apply_handler f remaining g)
             (State hp1 out cs) in
  (op = "foo" /\ r.1 = Ret VNone /\ stdout r.2 = out ++ ["do foo now"]) \/
  (op = "bar" /\ r.1 = Ret VNone /\ stdout r.2 = out ++ ["do bar now"]) \/
  op = "help" \/
  (op <> "foo" /\ op <> "bar" /\ op <> "help" /\
   r = (Raise (KeyError op), State hp1 out cs)).
Proof.
  intros Htab (s & o & c & a & doc & Hhelp) r. subst r.
  destruct (op_table_of self h !! op) as [f|] eqn:Hf.
  - erewrite bind_run by (eapply dict_getitem_run; eassumption).
    destruct (op_table_of_lookup_inv _ _ _ _ Hf)
      as [[-> ->] | [[-> ->] | [-> ->]]].
    + left. by erewrite apply_method_run by (left; done).
    + right. left. by erewrite apply_method_run by (right; done).
    + by right; right; left.
  - right. right. right.
    assert (op <> "foo" /\ op <> "bar" /\ op <> "help") as (H1 & H2 & H3).
    { split_and!; intros ->; done. }
    split_and!; try done.
    by erewrite bind_raise by (eapply dict_getitem_missing; eassumption).
Qed.

(** One invocation of the dispatcher, summed up. *)
Lemma call_summary parse_known_args self name session hp out cs args g :
  hp !! self = Some (OConfigCommand name session) ->
  let r := ConfigCommand.__call__ parse_known_args self args g
             (State hp out cs) in
  exists t h,
    hp !! t = None /\ hp !! h = None /\ t <> h /\
    ConfigCommand._create_operations_table self (State hp out cs)
    = (Ret (VRef t), State (table_heap self session t h hp) out cs) /\
    heap r.2 !! t = Some (ODict (op_table_of self h)) /\
    (exists doc,
       heap r.2 !! h
       = Some (OConfigHelpCommand session (VRef self) (VRef t) VNone doc)) /\
    (forall l o, hp !! l = Some o -> updated_in_place o = false ->
                 heap r.2 !! l = Some o) /\
    (forall l s o c a doc,
       hp !! l = Some (OConfigHelpCommand s o c a doc) ->
       exists doc', heap r.2 !! l = Some (OConfigHelpCommand s o c a doc')).
Proof.
  intros Hself r. subst r.
  destruct (call_run parse_known_args self name session hp out cs args g
              Hself)
    as (t & h & Htf & Hhf & Hth & Hcreate & ->).
  exists t, h.
  assert (Htab : table_heap self session t h hp !! t
                 = Some (ODict (op_table_of self h)))
    by apply lookup_insert_eq.
  assert (Hhelp : table_heap self session t h hp !! h
                  = Some (OConfigHelpCommand session (VRef self)
                            (VRef t) VNone [])).
  { unfold table_heap. rewrite lookup_insert_ne by done.
    apply lookup_insert_eq. }
  split_and!.
  - done.
  - done.
  - done.
  - done.
  - destruct (parse_known_args _ args) as [op remaining|status]; [|done].
    by apply dispatch_keeps.
  - destruct (parse_known_args _ args) as [op remaining|status]; [|by eauto].
    by eapply dispatch_keeps.
  - intros l o Hl Ho.
    pose proof (table_heap_frame self session t h hp l o Htf Hhf Hl) as Hl1.
    destruct (parse_known_args _ args) as [op remaining|status]; [|done].
    eapply (frames_bind _ _ (frames_dict_getitem _ _)
              (fun f => frames_apply_handler f remaining g)); done.
  - intros l s o c a doc Hl.
    pose proof (table_heap_frame self session t h hp l _ Htf Hhf Hl) as Hl1.
    destruct (parse_known_args _ args) as [op remaining|status];
      [|by eauto].
    by eapply dispatch_keeps.
Qed.

(** One invocation of the dispatcher, by the parser's answer. *)
Lemma call_outcome parse_known_args self name session hp out cs args g :
  hp !! self = Some (OConfigCommand name session) ->
  let r := ConfigCommand.__call__ parse_known_args self args g
             (State hp out cs) in
  exists t h,
    match parse_known_args
            (ServiceArgParser.new (op_table_of self h) name) args with
    | ServiceArgParser.Parsed op remaining =>
        (op = "foo" /\ r.1 = Ret VNone /\
         stdout r.2 = out ++ ["do foo now"]) \/
        (op = "bar" /\ r.1 = Ret VNone /\
         stdout r.2 = out ++ ["do bar now"]) \/
        op = "help" \/
        (op <> "foo" /\ op <> "bar" /\ op <> "help" /\
         r = (Raise (KeyError op),
              State (table_heap self session t h hp) out cs))
    | ServiceArgParser.ParserExit status =>
        r = (Raise (SystemExit status),
             State (table_heap self session t h hp) out cs)
    end.
Proof.
  intros Hself r. subst r.
  destruct (call_run parse_known_args self name session hp out cs args g
              Hself)
    as (t & h & Htf & Hhf & Hth & Hcreate & ->).
  exists t, h.
  destruct (parse_known_args _ args) as [op remaining|status]; [|done].
  apply (dispatch_stdout self t h).
  - apply lookup_insert_eq.
  - exists session, (VRef self), (VRef t), VNone, [].
    unfold table_heap. rewrite lookup_insert_ne by done.
    apply lookup_insert_eq.
Qed.

(** ** The dispatcher on every parser *)

(** X1. Line 72 subscripts the table with whatever operation the parser
    gives: when that name is none of [foo], [bar] and [help], the
    invocation raises [KeyError] for that name, prints nothing and applies
    no handler. *)
Theorem unknown_operation_is_key_error
    parse_known_args self name session args op remaining g st :
  heap st !! self = Some (OConfigCommand name session) ->
  op <> "foo" -> op <> "bar" -> op <> "help" ->
  requests parse_known_args self name args op remaining ->
  let r := ConfigCommand.__call__ parse_known_args self args g st in
  r.1 = Raise (KeyError op) /\
  stdout r.2 = stdout st /\
  calls r.2 = calls st.
Proof.
  destruct st as [hp out cs]. cbn [heap stdout calls].
  intros Hself Hfoo Hbar Hhelp Hreq.
  destruct (call_outcome parse_known_args self name session hp out cs args g
              Hself) as (t & h & Hout).
  rewrite (Hreq h) in Hout.
  destruct Hout as [[-> _] | [[-> _] | [-> | (_ & _ & _ & ->)]]];
    done.
Qed.

Lemma unknown_operation_is_key_error_witness :
  let r := ConfigCommand.__call__ parser_baz 2%positive ["foo"] VNone st0 in
  r.1 = Raise (KeyError "baz") /\
  stdout r.2 = stdout st0 /\
  calls r.2 = calls st0.
Proof.
  apply (unknown_operation_is_key_error parser_baz 2%positive "config"
           (VRef 1%positive) ["foo"] "baz" ["foo"] VNone st0).
  - reflexivity.
  - discriminate.
  - discriminate.
  - discriminate.
  - intros h. reflexivity.
Defined.

(** X2. Whatever the parser, the tokens and the options, an invocation of
    the dispatcher in which the parser does not read the verb [help]
    prints nothing or exactly one line, and that line is [do foo now] or
    [do bar now]. *)
Theorem dispatcher_prints_at_most_one_line
    parse_known_args self name session args g st :
  heap st !! self = Some (OConfigCommand name session) ->
  (forall h remaining,
     parse_known_args (ServiceArgParser.new (op_table_of self h) name) args
     <> ServiceArgParser.Parsed "help" remaining) ->
  let r := ConfigCommand.__call__ parse_known_args self args g st in
  stdout r.2 = stdout st \/
  stdout r.2 = stdout st ++ ["do foo now"] \/
  stdout r.2 = stdout st ++ ["do bar now"].
Proof.
  destruct st as [hp out cs]. cbn [heap stdout calls]. intros Hself Hnot.
  destruct (call_outcome parse_known_args self name session hp out cs args g
              Hself) as (t & h & Hout).
  specialize (Hnot h).
  destruct (parse_known_args _ args) as [op remaining|status].
  - destruct Hout as [(_ & _ & ->) | [(_ & _ & ->) | [-> |
                      (_ & _ & _ & ->)]]]; auto.
    by destruct (Hnot remaining).
  - rewrite Hout. auto.
Qed.

Lemma dispatcher_prints_at_most_one_line_witness :
  let r := ConfigCommand.__call__ (ServiceArgParser.parse_known_args 2)
             2%positive ["bar"; "help"] VNone st0 in
  stdout r.2 = stdout st0 \/
  stdout r.2 = stdout st0 ++ ["do foo now"] \/
  stdout r.2 = stdout st0 ++ ["do bar now"].
Proof.
  apply (dispatcher_prints_at_most_one_line _ 2%positive "config"
           (VRef 1%positive) ["bar"; "help"] VNone st0).
  - reflexivity.
  - intros h remaining. discriminate.
Defined.

(** X3. Whatever the parser, the tokens and the options, one invocation of
    the dispatcher leaves in place every object that was there before,
    other than a session's registry and a help command's document: the
    command itself, the host's command table and every other dict keep
    their contents. *)
Theorem dispatcher_leaves_other_objects
    parse_known_args self name session args g st l o :
  heap st !! self = Some (OConfigCommand name session) ->
  heap st !! l = Some o ->
  updated_in_place o = false ->
  heap (ConfigCommand.__call__ parse_known_args self args g st).2 !! l
  = Some o.
Proof.
  destruct st as [hp out cs]. cbn [heap]. intros Hself Hl Ho.
  destruct (call_summary parse_known_args self name session hp out cs args g
              Hself) as (t & h & _ & _ & _ & _ & _ & _ & Hframe & _).
  by apply Hframe.
Qed.

Lemma dispatcher_leaves_other_objects_witness :
  heap (ConfigCommand.__call__ (ServiceArgParser.parse_known_args 2)
          2%positive ["help"] VNone st0).2 !! 2%positive
  = Some (OConfigCommand "config" (VRef 1%positive)).
Proof.
  apply (dispatcher_leaves_other_objects _ 2%positive "config"
           (VRef 1%positive) ["help"] VNone st0 2%positive).
  - reflexivity.
  - reflexivity.
  - reflexivity.
Defined.

(** X4. Two invocations of the dispatcher, one after the other on the same
    command, build two different tables and two different help commands;
    after the second invocation both tables are still whole, and each help
    command still refers to its own table. *)
Theorem successive_invocations_build_separate_tables
    parse1 parse2 self name session args1 args2 g1 g2 st :
  heap st !! self = Some (OConfigCommand name session) ->
  let st1 := (ConfigCommand.__call__ parse1 self args1 g1 st).2 in
  let st2 := (ConfigCommand.__call__ parse2 self args2 g2 st1).2 in
  exists t1 h1 t2 h2,
    t1 <> t2 /\ h1 <> h2 /\ t1 <> h2 /\ t2 <> h1 /\
    (ConfigCommand._create_operations_table self st).1 = Ret (VRef t1) /\
    (ConfigCommand._create_operations_table self st1).1 = Ret (VRef t2) /\
    heap st2 !! t1 = Some (ODict (op_table_of self h1)) /\
    heap st2 !! t2 = Some (ODict (op_table_of self h2)) /\
    (exists doc,
       heap st2 !! h1
       = Some (OConfigHelpCommand session (VRef self) (VRef t1) VNone doc)) /\
    (exists doc,
       heap st2 !! h2
       = Some (OConfigHelpCommand session (VRef self) (VRef t2) VNone doc)).
Proof.
  destruct st as [hp out cs]. intros Hself st1 st2. cbn [heap] in Hself.
  destruct (call_summary parse1 self name session hp out cs args1 g1 Hself)
    as (t1 & h1 & _ & _ & _ & Hc1 & Ht1 & [doc1 Hh1] & Hframe1 & _).
  fold st1 in Ht1, Hh1, Hframe1.
  assert (Hself1 : heap st1 !! self = Some (OConfigCommand name session))
    by (by apply Hframe1).
  subst st2. destruct st1 as [hp1 out1 cs1]. cbn [heap] in *.
  destruct (call_summary parse2 self name session hp1 out1 cs1 args2 g2
              Hself1)
    as (t2 & h2 & Htf2 & Hhf2 & _ & Hc2 & Ht2 & Hh2 & Hframe2 & Hhelp2).
  exists t1, h1, t2, h2.
  split_and!; try congruence.
  - by rewrite Hc1.
  - by rewrite Hc2.
  - by apply Hframe2.
  - destruct (Hhelp2 _ _ _ _ _ _ Hh1) as [doc' Hdoc']. eauto.
Qed.

Lemma successive_invocations_build_separate_tables_witness :
  let st1 := (ConfigCommand.__call__ (ServiceArgParser.parse_known_args 2)
                2%positive ["help"] VNone st0).2 in
  let st2 := (ConfigCommand.__call__ (ServiceArgParser.parse_known_args 2)
                2%positive ["foo"] VNone st1).2 in
  exists t1 h1 t2 h2,
    t1 <> t2 /\ h1 <> h2 /\ t1 <> h2 /\ t2 <> h1 /\
    (ConfigCommand._create_operations_table 2%positive st0).1
    = Ret (VRef t1) /\
    (ConfigCommand._create_operations_table 2%positive st1).1
    = Ret (VRef t2) /\
    heap st2 !! t1 = Some (ODict (op_table_of 2%positive h1)) /\
    heap st2 !! t2 = Some (ODict (op_table_of 2%positive h2)) /\
    (exists doc,
       heap st2 !! h1
       = Some (OConfigHelpCommand (VRef 1%positive) (VRef 2%positive)
                 (VRef t1) VNone doc)) /\
    (exists doc,
       heap st2 !! h2
       = Some (OConfigHelpCommand (VRef 1%positive) (VRef 2%positive)
                 (VRef t2) VNone doc)).
Proof.
  apply (successive_invocations_build_separate_tables _ _ 2%positive
           "config" (VRef 1%positive) ["help"] ["foo"] VNone VNone st0).
  reflexivity.
Defined.

(** ** Registration, then dispatch *)

(** X5. After the hook has run on a command table, the entry of the table
    under [config] is a command that dispatches: looked up and invoked
    with verb [foo] (or [bar]) it returns [None] and prints exactly the
    line [do foo now] (or [do bar now]), and the table still holds the
    entry. *)
Theorem registered_command_dispatches
    parse_known_args ct d session args verb remaining g st :
  heap st !! ct = Some (ODict d) ->
  verb = "foo" \/ verb = "bar" ->
  (forall c, requests parse_known_args c "config" args verb remaining) ->
  exists c st1,
    add_command (VRef ct) session st = (Ret VNone, st1) /\
    dict_getitem (VRef ct) "config" st1 = (Ret (VRef c), st1) /\
    let r := ConfigCommand.__call__ parse_known_args c args g st1 in
    r.1 = Ret VNone /\
    stdout r.2 = stdout st ++ ["do " +:+ verb +:+ " now"] /\
    heap r.2 !! ct = Some (ODict (<["config" := VRef c]> d)).
Proof.
  destruct st as [hp out cs]. cbn [heap stdout]. intros Hct Hverb Hreq.
  destruct (add_command_run hp out cs ct d session Hct)
    as (c & Hc & Hne & Hrun).
  eexists c, _. split; [exact Hrun|].
  set (hp1 := <[ct := ODict (<["config" := VRef c]> d)]>
                (<[c := OConfigCommand "config" session]> hp)).
  assert (Hct1 : hp1 !! ct = Some (ODict (<["config" := VRef c]> d)))
    by apply lookup_insert_eq.
  assert (Hc1 : hp1 !! c = Some (OConfigCommand "config" session)).
  { unfold hp1. rewrite lookup_insert_ne by done. apply lookup_insert_eq. }
  split.
  { eapply dict_getitem_run; [exact Hct1 | apply lookup_insert_eq]. }
  cbv zeta.
  destruct (call_summary parse_known_args c "config" session hp1 out cs
              args g Hc1)
    as (_ & _ & _ & _ & _ & _ & _ & _ & Hframe & _).
  destruct (call_outcome parse_known_args c "config" session hp1 out cs
              args g Hc1) as (t & h & Hout).
  rewrite (Hreq c h) in Hout.
  split_and!.
  - destruct Hverb as [-> | ->];
      destruct Hout as [(? & ? & ?) | [(? & ? & ?) | [? |
                        (? & ? & ? & ?)]]]; done.
  - destruct Hverb as [-> | ->];
      destruct Hout as [(? & ? & ?) | [(? & ? & ?) | [? |
                        (? & ? & ? & ?)]]]; done.
  - by apply Hframe.
Qed.

Lemma registered_command_dispatches_witness :
  exists c st1,
    add_command (VRef 2%positive) (VRef 1%positive) st_table
    = (Ret VNone, st1) /\
    dict_getitem (VRef 2%positive) "config" st1 = (Ret (VRef c), st1) /\
    let r := ConfigCommand.__call__ (ServiceArgParser.parse_known_args 2)
               c ["foo"] VNone st1 in
    r.1 = Ret VNone /\
    stdout r.2 = stdout st_table ++ ["do " +:+ "foo" +:+ " now"] /\
    heap r.2 !! 2%positive
    = Some (ODict (<["config" := VRef c]> ∅)).
Proof.
  apply (registered_command_dispatches _ 2%positive ∅ (VRef 1%positive)
           ["foo"] "foo" [] VNone st_table).
  - reflexivity.
  - left. reflexivity.
  - intros c h. reflexivity.
Defined.

(** X6. On a value that is not a dict ([None], a string, a method, or an
    object of another class such as a session) the hook raises
    [TypeError] at the subscript assignment: no object that was there
    before is changed and nothing is printed. *)
Theorem add_command_needs_a_dict command_table session st :
  (forall l d, command_table = VRef l -> heap st !! l <> Some (ODict d)) ->
  let r := add_command command_table session st in
  r.1 = Raise TypeError /\
  stdout r.2 = stdout st /\
  forall l o', heap st !! l = Some o' -> heap r.2 !! l = Some o'.
Proof.
  destruct st as [hp out cs]. intros Hct r. subst r. cbn [heap] in Hct.
  set (c := fresh (dom hp)).
  assert (Hc : hp !! c = None) by apply fresh_None.
  unfold add_command, ConfigCommand.new.
  erewrite bind_run by (erewrite bind_run by reflexivity; reflexivity).
  cbn [heap stdout calls set_heap]. fold c.
  assert (Hframe : forall l o', hp !! l = Some o' ->
            <[c := OConfigCommand "config" session]> hp !! l = Some o').
  { intros l o' Hl. rewrite lookup_insert_ne by congruence. done. }
  assert (Hset :
    dict_setitem command_table "config" (VRef c)
      (State (<[c := OConfigCommand "config" session]> hp) out cs)
    = (Raise TypeError,
       State (<[c := OConfigCommand "config" session]> hp) out cs)).
  { unfold dict_setitem. cbn [heap].
    destruct command_table as [| |l|]; try reflexivity.
    destruct (decide (l = c)) as [->|Hne].
    - by rewrite lookup_insert_eq.
    - rewrite lookup_insert_ne by done.
      destruct (hp !! l) as [[d| | | |]|] eqn:El; try reflexivity.
      by destruct (Hct l d eq_refl). }
  rewrite (bind_raise _ _ _ _ _ Hset).
  by split_and!.
Qed.

Lemma add_command_needs_a_dict_witness :
  let r := add_command VNone (VRef 1%positive) st_table in
  r.1 = Raise TypeError /\
  stdout r.2 = stdout st_table /\
  forall l o',
    heap st_table !! l = Some o' -> heap r.2 !! l = Some o'.
Proof.
  apply (add_command_needs_a_dict VNone (VRef 1%positive) st_table).
  intros l d Hl. discriminate Hl.
Defined.

(** ** The two document handlers *)

(** X7. [title] followed by [description], on a help command whose [obj]
    is a config command, raise nothing and append to its document, in this
    order, the heading [config], the sub-heading [Description] and the
    documentation string; no other object changes and nothing is printed.
    The heading is the help command's own [name] property: it is [config]
    whatever name the command object was constructed with. *)
Theorem title_then_description_document
    h s self c a doc name session st :
  heap st !! h = Some (OConfigHelpCommand s (VRef self) c a doc) ->
  heap st !! self = Some (OConfigCommand name session) ->
  (ConfigDocumentEventHandler.title (VRef h) ≫= fun _ =>
   ConfigDocumentEventHandler.description (VRef h)) st
  = (Ret VNone,
     State (<[h := OConfigHelpCommand s (VRef self) c a
                     (doc ++ [H1 "config"; H2 "Description";
                              DocString "Edit the AWSCLI config file"])]>
              (heap st))
       (stdout st) (calls st)).
Proof.
  destruct st as [hp out cs]. cbn [heap stdout calls]. intros Hh Hself.
  assert (h <> self) by congruence.
  erewrite bind_run by (eapply title_run; exact Hh).
  erewrite description_run
    by (first [ apply lookup_insert_eq
              | rewrite lookup_insert_ne by done; exact Hself ]).
  by rewrite insert_insert_eq, <- app_assoc.
Qed.

Lemma title_then_description_document_witness :
  (ConfigDocumentEventHandler.title (VRef 3%positive) ≫= fun _ =>
   ConfigDocumentEventHandler.description (VRef 3%positive)) st_settings
  = (Ret VNone,
     State (<[3%positive := OConfigHelpCommand (VRef 1%positive)
                              (VRef 2%positive) VNone VNone
                              ([] ++ [H1 "config"; H2 "Description";
                                 DocString "Edit the AWSCLI config file"])]>
              (heap st_settings))
       (stdout st_settings) (calls st_settings)).
Proof.
  apply (title_then_description_document 3%positive (VRef 1%positive)
           2%positive VNone VNone [] "settings" (VRef 1%positive)
           st_settings).
  - reflexivity.
  - reflexivity.
Defined.

(** X8. [description] writes the sub-heading before it reads
    [config.documentation]: on a help command whose [obj] is not a config
    command (it is [None], or some other object) the handler raises
    [AttributeError] with the sub-heading [Description] already appended
    to the document, and no documentation string after it. *)
Theorem description_writes_heading_before_failing h s ob c a doc st :
  heap st !! h = Some (OConfigHelpCommand s ob c a doc) ->
  (forall l name session,
     ob = VRef l -> heap st !! l <> Some (OConfigCommand name session)) ->
  ConfigDocumentEventHandler.description (VRef h) st
  = (Raise AttributeError,
     State (<[h := OConfigHelpCommand s ob c a (doc ++ [H2 "Description"])]>
              (heap st))
       (stdout st) (calls st)).
Proof.
  destruct st as [hp out cs]. cbn [heap stdout calls]. intros Hh Hob.
  unfold ConfigDocumentEventHandler.description, get_obj, get_documentation.
  erewrite bind_run
    by (erewrite bind_run by (apply deref_run; eassumption); reflexivity).
  erewrite bind_run by (eapply doc_write_run; eassumption).
  apply bind_raise.
  destruct ob as [| |l|]; try reflexivity.
  destruct (decide (l = h)) as [->|Hne].
  - by erewrite bind_run by (apply deref_run, lookup_insert_eq).
  - destruct (hp !! l) as [o|] eqn:El.
    + erewrite bind_run
        by (apply deref_run; rewrite lookup_insert_ne by done; exact El).
      destruct o; try reflexivity.
      by destruct (Hob l name session eq_refl).
    + apply bind_raise. unfold deref. cbn [heap].
      by rewrite lookup_insert_ne, El by done.
Qed.

Lemma description_writes_heading_before_failing_witness :
  ConfigDocumentEventHandler.description (VRef 3%positive) st_help_no_obj
  = (Raise AttributeError,
     State (<[3%positive := OConfigHelpCommand (VRef 1%positive) VNone VNone
                              VNone ([H1 "config"] ++ [H2 "Description"])]>
              (heap st_help_no_obj))
       (stdout st_help_no_obj) (calls st_help_no_obj)).
Proof.
  apply (description_writes_heading_before_failing 3%positive
           (VRef 1%positive) VNone VNone VNone [H1 "config"] st_help_no_obj).
  - reflexivity.
  - intros l name session Hl. discriminate Hl.
Defined.

(** ** The translation map *)

Lemma build_translation_map_cons op operations m :
  build_translation_map (op :: operations) m
  = build_translation_map operations
      (<[Operation.name op := Operation.cli_name op]> m).
Proof. reflexivity. Qed.

Lemma build_translation_map_app ops1 ops2 m :
  build_translation_map (ops1 ++ ops2) m
  = build_translation_map ops2 (build_translation_map ops1 m).
Proof. apply foldl_app. Qed.

Lemma last_operation_named k operations :
  k ∈ operation_names operations ->
  exists ops1 op ops2,
    operations = ops1 ++ op :: ops2 /\
    Operation.name op = k /\
    k ∉ operation_names ops2.
Proof.
  unfold operation_names.
  induction operations as [|op ops IH]; simpl.
  - intros H. by apply elem_of_nil in H.
  - intros Hin.
    destruct (decide (k ∈ Operation.name <$> ops)) as [Hk|Hk].
    + destruct (IH Hk) as (ops1 & op' & ops2 & -> & Hn & Hnot).
      by exists (op :: ops1), op', ops2.
    + apply elem_of_cons in Hin as [->|Hin]; [|done].
      by exists [], op, ops.
Qed.

Lemma build_translation_map_lookup_other operations m k :
  k ∉ operation_names operations ->
  build_translation_map operations m !! k = m !! k.
Proof.
  unfold operation_names.
  revert m.
  induction operations as [|op ops IH]; intros m Hk; [done|].
  rewrite build_translation_map_cons. simpl in Hk.
  apply not_elem_of_cons in Hk as [Hne Hk].
  rewrite IH by done. by rewrite lookup_insert_ne.
Qed.

Lemma build_translation_map_lookup_last ops1 op ops2 m :
  Operation.name op ∉ operation_names ops2 ->
  build_translation_map (ops1 ++ op :: ops2) m !! Operation.name op
  = Some (Operation.cli_name op).
Proof.
  intros Hk.
  rewrite build_translation_map_app, build_translation_map_cons.
  rewrite build_translation_map_lookup_other by done.
  apply lookup_insert_eq.
Qed.

(** X9. [build_translation_map] writes under the names of the operations
    only: a key that is the name of none of them keeps the entry it had,
    or stays absent. *)
Theorem build_translation_map_other_keys operations translation_map k :
  k ∉ operation_names operations ->
  build_translation_map operations translation_map !! k
  = translation_map !! k.
Proof.
  unfold operation_names. revert translation_map.
  induction operations as [|op ops IH]; intros m Hk; [done|].
  rewrite build_translation_map_cons. simpl in Hk.
  apply not_elem_of_cons in Hk as [Hne Hk].
  rewrite IH by done. by rewrite lookup_insert_ne.
Qed.

Lemma build_translation_map_other_keys_witness :
  build_translation_map
    [Operation.new "ListThings" "list-things";
     Operation.new "GetThing" "get-thing"]
    {["Other" := "kept"]} !! "Other"
  = ({["Other" := "kept"]} : gmap string string) !! "Other".
Proof.
  apply (build_translation_map_other_keys
           [Operation.new "ListThings" "list-things";
            Operation.new "GetThing" "get-thing"]
           {["Other" := "kept"]} "Other").
  apply (bool_decide_unpack _). vm_compute. exact I.
Defined.

(** X10. When several operations have the same name, the last one in the
    list wins: after the loop the name is bound to the [cli_name] of the
    last operation that has it, whatever the map held before. *)
Theorem build_translation_map_last_wins
    ops1 op ops2 translation_map :
  Operation.name op ∉ operation_names ops2 ->
  build_translation_map (ops1 ++ op :: ops2) translation_map
    !! Operation.name op
  = Some (Operation.cli_name op).
Proof.
  intros Hk.
  rewrite build_translation_map_app, build_translation_map_cons.
  rewrite build_translation_map_lookup_other by done.
  apply lookup_insert_eq.
Qed.

Lemma build_translation_map_last_wins_witness :
  build_translation_map
    ([Operation.new "GetThing" "get-thing-old"]
     ++ Operation.new "GetThing" "get-thing" :: [])
    {["GetThing" := "stale"]}
    !! Operation.name (Operation.new "GetThing" "get-thing")
  = Some (Operation.cli_name (Operation.new "GetThing" "get-thing")).
Proof.
  apply (build_translation_map_last_wins
           [Operation.new "GetThing" "get-thing-old"]
           (Operation.new "GetThing" "get-thing") []
           {["GetThing" := "stale"]}).
  apply (bool_decide_unpack _). vm_compute. exact I.
Defined.

(** X11. Running [build_translation_map] a second time over the same
    operations changes nothing: the map after two runs is the map after
    one. *)
Theorem build_translation_map_idempotent operations translation_map :
  build_translation_map operations
    (build_translation_map operations translation_map)
  = build_translation_map operations translation_map.
Proof.
  apply map_eq. intros k.
  destruct (decide (k ∈ operation_names operations)) as [Hk|Hk].
  - destruct (last_operation_named k operations Hk)
      as (ops1 & op & ops2 & -> & <- & Hnot).
    by rewrite !build_translation_map_lookup_last.
  - by rewrite !build_translation_map_lookup_other.
Qed.
